(** * Hilbert curve conversions of [hilbert/hilbert.go]

    The package has three functions: [XYToD], [DToXY] and the helper [rot].
    They compute on Go's [int], which is a 64-bit two's complement integer
    on the 64-bit targets; arithmetic on it wraps around silently.  The
    embedding below keeps an [int] as a [Z] inside [[-2^63, 2^63)] and writes
    the wrap-around out at every [+], [-] and [*] of the source. *)

From Stdlib Require Import ZArith Lia Bool.

Local Open Scope Z_scope.

(** ** Go's [int] *)

Module GoInt.

Definition two63 : Z := 9223372036854775808.
Definition two64 : Z := 18446744073709551616.

Definition min_int : Z := - two63.
Definition max_int : Z := two63 - 1.

(** [Int z]: [z] is a value of type [int]. *)
Definition Int (z : Z) : Prop := min_int <= z <= max_int.

(** The representative of [z] modulo [2^64] that an [int] holds. *)
Definition wrap (z : Z) : Z := (z + two63) mod two64 - two63.

Definition add (a b : Z) : Z := wrap (a + b).
Definition sub (a b : Z) : Z := wrap (a - b).
Definition mul (a b : Z) : Z := wrap (a * b).

(** [a / c] for a positive constant [c]: Go truncates toward zero, and the
    quotient of an [int] by a positive constant is an [int] again. *)
Definition quo (a c : Z) : Z := Z.quot a c.

End GoInt.

Import GoInt.

(** ** The source functions *)

(** [rot(n, rx, ry, &x, &y)]: the two cells behind the pointers are passed
    in and handed back as a pair. *)
Definition rot (n rx ry : Z) (xy : Z * Z) : Z * Z :=
  let '(x, y) := xy in
  if ry =? 0 then
    let '(x, y) :=
      if rx =? 1 then (sub (sub n 1) x, sub (sub n 1) y) else (x, y) in
    (y, x)
  else (x, y).

(** The loop of [XYToD], [for ; s > 0; s /= 2 { ... }], entered with the
    current [s], [d], [x] and [y].  [None] means the fuel ran out before the
    loop condition failed. *)
Fixpoint XYToD_loop (fuel : nat) (s d x y : Z) : option Z :=
  match fuel with
  | O => None
  | S fuel' =>
      if s >? 0 then
        let rx := if Z.land x s >? 0 then 1 else 0 in
        let ry := if Z.land y s >? 0 then 1 else 0 in
        let d := add d (mul (mul s s) (Z.lxor (mul 3 rx) ry)) in
        let '(x, y) := rot s rx ry (x, y) in
        XYToD_loop fuel' (quo s 2) d x y
      else Some d
  end.

(** [s] starts below [2^62] and is halved, so 64 rounds always suffice
    (see [XYToD_loop_fuel] and [XYToD_returns]). *)
Definition XYToD (n x y : Z) : option Z :=
  XYToD_loop 64 (quo n 2) 0 x y.

(** The loop of [DToXY], [for ; s < n; s *= 2 { ... }]. *)
Fixpoint DToXY_loop (fuel : nat) (n s t x y : Z) : option (Z * Z) :=
  match fuel with
  | O => None
  | S fuel' =>
      if s <? n then
        let rx := Z.land 1 (quo t 2) in
        let ry := Z.land 1 (Z.lxor t rx) in
        let '(x, y) := rot s rx ry (x, y) in
        let x := add x (mul s rx) in
        let y := add y (mul s ry) in
        let t := quo t 4 in
        DToXY_loop fuel' n (mul s 2) t x y
      else Some (x, y)
  end.

(** After 64 doublings [s] has wrapped to [0] and stays there, so a run that
    has not left the loop within 65 tests of the condition never does
    (see [DToXY_diverges]). *)
Definition DToXY (n d : Z) : option (Z * Z) :=
  DToXY_loop 65 n 1 d 0 0.


(** ** The curve on unbounded integers

    [cell k d] and [dist k p] describe what the two loops compute when no
    operation overflows, by recursion on the order [k] of the grid (side
    [2^k]).  They are proof devices: every claim below is stated on [XYToD],
    [DToXY] and [rot], and [XYToD_spec] and [DToXY_spec] tie the loops to
    them. *)

Module Curve.

Definition side (k : nat) : Z := 2 ^ Z.of_nat k.

(** [rot] without wrap-around. *)
Definition rotZ (s rx ry : Z) (p : Z * Z) : Z * Z :=
  let '(x, y) := p in
  if ry =? 0 then
    if rx =? 1 then (s - 1 - y, s - 1 - x) else (y, x)
  else (x, y).

(** The quadrant bits [(rx, ry)] of the base-4 digit [q]. *)
Definition quadrant (q : Z) : Z * Z :=
  if q =? 0 then (0, 0)
  else if q =? 1 then (0, 1)
  else if q =? 2 then (1, 1)
  else (1, 0).

(** The base-4 digit of the quadrant [(rx, ry)]. *)
Definition ordinal (rx ry : Z) : Z :=
  if rx =? 0 then ry else 3 - ry.

(** One round of [DToXY] at scale [s] with digit [q]. *)
Definition place (s q : Z) (p : Z * Z) : Z * Z :=
  let '(rx, ry) := quadrant q in
  let '(x, y) := rotZ s rx ry p in
  (x + s * rx, y + s * ry).

Fixpoint cell (k : nat) (d : Z) : Z * Z :=
  match k with
  | O => (0, 0)
  | S k' =>
      let s := side k' in
      place s ((d / (s * s)) mod 4) (cell k' d)
  end.

Fixpoint dist (k : nat) (p : Z * Z) : Z :=
  match k with
  | O => 0
  | S k' =>
      let s := side k' in
      let rx := (fst p / s) mod 2 in
      let ry := (snd p / s) mod 2 in
      s * s * ordinal rx ry + dist k' (rotZ s rx ry p)
  end.

(** Two cells that share an edge. *)
Definition adjacent (p p' : Z * Z) : Prop :=
  (fst p' - fst p) * (fst p' - fst p) +
  (snd p' - snd p) * (snd p' - snd p) = 1.

End Curve.

Import Curve.

(** ** Vocabulary of the statements *)

(** [n] is a power of two. *)
Definition pow2 (n : Z) : Prop := exists k : nat, n = 2 ^ Z.of_nat k.

(** [x] is a coordinate of the grid of side [n]. *)
Definition in_grid (n x : Z) : Prop := 0 <= x <= n - 1.

(** A call returns when some number of rounds brings its loop to the exit. *)
Definition XYToD_terminates (n x y : Z) : Prop :=
  exists fuel d, XYToD_loop fuel (quo n 2) 0 x y = Some d.

Definition DToXY_terminates (n d : Z) : Prop :=
  exists fuel p, DToXY_loop fuel n 1 d 0 0 = Some p.

Ltac zdiv := Z.to_euclidean_division_equations; lia.

Ltac int_bounds := unfold Int, min_int, max_int, two63, two64 in *.

(** ** A few runs *)

Example XYToD_4_2_0 : XYToD 4 2 0 = Some 14.
Proof. vm_compute. reflexivity. Qed.

Example DToXY_4_7 : DToXY 4 7 = Some (1, 2).
Proof. vm_compute. reflexivity. Qed.

Example cell_2_7 : cell 2 7 = (1, 2).
Proof. vm_compute. reflexivity. Qed.

Example dist_2_2_0 : dist 2 (2, 0) = 14.
Proof. vm_compute. reflexivity. Qed.

(** ** Arithmetic of [int] *)

Lemma wrap_Int z : Int (wrap z).
Proof. unfold Int, wrap, min_int, max_int, two63, two64. zdiv. Qed.

Lemma wrap_small z : Int z -> wrap z = z.
Proof. unfold Int, wrap, min_int, max_int, two63, two64. zdiv. Qed.

Lemma wrap_mod z : wrap z mod two64 = z mod two64.
Proof. unfold wrap, two63, two64. zdiv. Qed.

Lemma wrap_eq_mod a b : a mod two64 = b mod two64 -> wrap a = wrap b.
Proof. unfold wrap, two63, two64. zdiv. Qed.

Lemma wrap_add_l a b : wrap (wrap a + b) = wrap (a + b).
Proof.
  apply wrap_eq_mod.
  rewrite Z.add_mod, wrap_mod, <- Z.add_mod; unfold two64; lia.
Qed.

Lemma wrap_add_r a b : wrap (a + wrap b) = wrap (a + b).
Proof. rewrite Z.add_comm, wrap_add_l. f_equal. lia. Qed.

Lemma wrap_mul_l a b : wrap (wrap a * b) = wrap (a * b).
Proof.
  apply wrap_eq_mod.
  rewrite Z.mul_mod, wrap_mod, <- Z.mul_mod; unfold two64; lia.
Qed.

Lemma wrap_sub_l a b : wrap (wrap a - b) = wrap (a - b).
Proof.
  apply wrap_eq_mod.
  rewrite Zminus_mod, wrap_mod, <- Zminus_mod. reflexivity.
Qed.

(** ** Powers of two *)

Lemma side_pos k : 0 < side k.
Proof. unfold side. apply Z.pow_pos_nonneg; lia. Qed.

Lemma side_S k : side (S k) = 2 * side k.
Proof.
  unfold side. rewrite Nat2Z.inj_succ, Z.pow_succ_r by lia. reflexivity.
Qed.

Lemma side_0 : side 0 = 1.
Proof. reflexivity. Qed.

Lemma side_le j k : (j <= k)%nat -> side j <= side k.
Proof. intros H. unfold side. apply Z.pow_le_mono_r; lia. Qed.

Lemma side_lt j k : (j < k)%nat -> side j < side k.
Proof. intros H. unfold side. apply Z.pow_lt_mono_r; lia. Qed.

Lemma side_62 : side 62 = 4611686018427387904.
Proof. reflexivity. Qed.

Lemma side_64 : side 64 = two64.
Proof. reflexivity. Qed.

(** A positive [int] that is a power of two is at most [2^62]. *)
Lemma side_Int k : Int (side k) -> (k <= 62)%nat.
Proof.
  intros [_ H]. destruct (Nat.le_gt_cases k 62) as [L | L]; [exact L | ].
  pose proof (side_le 63 k L) as H1.
  change (side 63) with two63 in H1. unfold max_int in H. lia.
Qed.

Lemma side_mod_wrap k z :
  (k <= 64)%nat -> wrap z mod side k = z mod side k.
Proof.
  intros H.
  assert (D : two64 = side k * side (64 - k)).
  { rewrite <- side_64. unfold side. rewrite <- Z.pow_add_r by lia.
    f_equal. lia. }
  pose proof (side_pos k) as P. pose proof (side_pos (64 - k)) as P'.
  pose proof (wrap_mod z) as W. rewrite D in W.
  rewrite !Z.rem_mul_r in W by lia.
  pose proof (Z.mod_pos_bound (wrap z) (side k) P).
  pose proof (Z.mod_pos_bound z (side k) P).
  set (u := (wrap z / side k) mod side (64 - k)) in *.
  set (v := (z / side k) mod side (64 - k)) in *.
  assert (u = v) by nia. nia.
Qed.

(** ** Quadrants and digits *)

Lemma quadrant_ordinal rx ry :
  0 <= rx <= 1 -> 0 <= ry <= 1 -> quadrant (ordinal rx ry) = (rx, ry).
Proof.
  intros Hx Hy.
  assert (Cx : rx = 0 \/ rx = 1) by lia.
  assert (Cy : ry = 0 \/ ry = 1) by lia.
  destruct Cx, Cy; subst; reflexivity.
Qed.

Lemma ordinal_quadrant q :
  0 <= q <= 3 -> ordinal (fst (quadrant q)) (snd (quadrant q)) = q.
Proof.
  intros H.
  assert (C : q = 0 \/ q = 1 \/ q = 2 \/ q = 3) by lia.
  destruct C as [C | [C | [C | C]]]; subst; reflexivity.
Qed.

Lemma quadrant_bits q :
  0 <= fst (quadrant q) <= 1 /\ 0 <= snd (quadrant q) <= 1.
Proof.
  unfold quadrant.
  destruct (q =? 0); [simpl; lia | ].
  destruct (q =? 1); [simpl; lia | ].
  destruct (q =? 2); simpl; lia.
Qed.

Lemma ordinal_range rx ry :
  0 <= rx <= 1 -> 0 <= ry <= 1 -> 0 <= ordinal rx ry <= 3.
Proof. intros Hx Hy. unfold ordinal. destruct (rx =? 0); lia. Qed.

(** The digit that [XYToD] adds, [(3 * rx) ^ ry], on bits. *)
Lemma lxor_ordinal rx ry :
  0 <= rx <= 1 -> 0 <= ry <= 1 -> Z.lxor (3 * rx) ry = ordinal rx ry.
Proof.
  intros Hx Hy.
  assert (Cx : rx = 0 \/ rx = 1) by lia.
  assert (Cy : ry = 0 \/ ry = 1) by lia.
  destruct Cx, Cy; subst; reflexivity.
Qed.

Lemma land_1 a : Z.land 1 a = a mod 2.
Proof.
  rewrite Z.land_comm. change 1 with (Z.ones 1) at 1.
  rewrite Z.land_ones by lia. reflexivity.
Qed.

Lemma lxor_mod_2 a b : Z.lxor a b mod 2 = (a + b) mod 2.
Proof.
  rewrite <- !Z.bit0_mod, Z.lxor_spec, !Z.bit0_odd, Z.odd_add.
  reflexivity.
Qed.

(** The bits that [DToXY] extracts from [t], for [t >= 0]. *)
Lemma loop_bits t :
  0 <= t ->
  (Z.land 1 (quo t 2), Z.land 1 (Z.lxor t (Z.land 1 (quo t 2))))
  = quadrant (t mod 4).
Proof.
  intros Ht. unfold quo. rewrite !land_1, lxor_mod_2.
  rewrite Z.quot_div_nonneg by lia.
  assert (B : 0 <= t mod 4 < 4) by (apply Z.mod_pos_bound; lia).
  assert (C : t mod 4 = 0 \/ t mod 4 = 1 \/ t mod 4 = 2 \/ t mod 4 = 3)
    by lia.
  destruct C as [C | [C | [C | C]]]; rewrite C; unfold quadrant; simpl;
    f_equal; zdiv.
Qed.

(** The test [x & s > 0] of [XYToD] for [s = 2^j]. *)
Lemma land_side x j :
  (if Z.land x (side j) >? 0 then 1 else 0) = (x / side j) mod 2.
Proof.
  unfold side. set (n := Z.of_nat j). assert (Hn : 0 <= n) by lia.
  assert (E : Z.land x (2 ^ n) = (if Z.testbit x n then 2 ^ n else 0)).
  { apply Z.bits_inj'. intros i Hi.
    rewrite Z.land_spec, Z.pow2_bits_eqb by lia.
    destruct (Z.eqb_spec n i) as [-> | N].
    - destruct (Z.testbit x i) eqn:T; simpl.
      + rewrite Z.pow2_bits_true by lia. reflexivity.
      + rewrite Z.bits_0. reflexivity.
    - rewrite andb_false_r.
      destruct (Z.testbit x n); [ | rewrite Z.bits_0; reflexivity].
      rewrite Z.pow2_bits_false by lia. reflexivity. }
  rewrite E. pose proof (Z.pow_pos_nonneg 2 n ltac:(lia) Hn) as P.
  destruct (Z.testbit x n) eqn:T.
  - apply Z.testbit_true in T; [ | lia]. rewrite T.
    destruct (Z.gtb_spec (2 ^ n) 0); lia.
  - apply Z.testbit_false in T; [ | lia]. rewrite T. reflexivity.
Qed.

(** ** Splitting a number at a power of two *)

Lemma split_unique m q r q' r' :
  0 < m -> 0 <= r < m -> 0 <= r' < m ->
  m * q + r = m * q' + r' -> q = q' /\ r = r'.
Proof. intros Hm Hr Hr' E. assert (q = q') by nia. subst. lia. Qed.

(** Equal residues modulo [m * c] give equal residues modulo [m] and equal
    digits above them. *)
Lemma mod_mul_split a b m c :
  0 < m -> 0 < c ->
  a mod (m * c) = b mod (m * c) ->
  a mod m = b mod m /\ (a / m) mod c = (b / m) mod c.
Proof.
  intros Hm Hc E. rewrite !Z.rem_mul_r in E by lia.
  pose proof (Z.mod_pos_bound a m Hm). pose proof (Z.mod_pos_bound b m Hm).
  destruct (split_unique m ((a / m) mod c) (a mod m) ((b / m) mod c)
              (b mod m) Hm ltac:(lia) ltac:(lia) ltac:(lia)) as [A B].
  split; congruence.
Qed.

Lemma div_mod_small m q r :
  0 < m -> 0 <= r < m -> (m * q + r) / m = q /\ (m * q + r) mod m = r.
Proof.
  intros Hm Hr. split.
  - symmetry. apply (Z.div_unique_pos _ _ q r); lia.
  - symmetry. apply (Z.mod_unique_pos _ _ q r); lia.
Qed.

(** ** The transform [rotZ] *)

Lemma rotZ_range s rx ry x y :
  0 <= x < s -> 0 <= y < s ->
  0 <= fst (rotZ s rx ry (x, y)) < s /\ 0 <= snd (rotZ s rx ry (x, y)) < s.
Proof.
  intros Hx Hy. unfold rotZ.
  destruct (ry =? 0); [destruct (rx =? 1) | ]; simpl; lia.
Qed.

Lemma rotZ_congr s rx ry x y x' y' :
  x mod s = x' mod s -> y mod s = y' mod s ->
  fst (rotZ s rx ry (x, y)) mod s = fst (rotZ s rx ry (x', y')) mod s /\
  snd (rotZ s rx ry (x, y)) mod s = snd (rotZ s rx ry (x', y')) mod s.
Proof.
  intros Hx Hy. unfold rotZ.
  destruct (ry =? 0); [destruct (rx =? 1) | ]; simpl; auto.
  split.
  - rewrite (Zminus_mod (s - 1) y), (Zminus_mod (s - 1) y'), Hy. reflexivity.
  - rewrite (Zminus_mod (s - 1) x), (Zminus_mod (s - 1) x'), Hx. reflexivity.
Qed.

(** Applied twice with the same bits, [rotZ] is the identity on the cells of
    the [s] by [s] square. *)
Lemma rotZ_involutive s rx ry x y :
  rotZ s rx ry (rotZ s rx ry (x, y)) = (x, y).
Proof.
  unfold rotZ.
  destruct (ry =? 0); [destruct (rx =? 1) | ]; simpl;
    try reflexivity; f_equal; lia.
Qed.

(** The machine [rot] agrees with [rotZ] modulo [2^64]. *)
Lemma rot_wrap s rx ry x y :
  rot s rx ry (x, y)
  = (wrap (fst (rotZ s rx ry (x, y))), wrap (snd (rotZ s rx ry (x, y))))
  \/ rot s rx ry (x, y) = rotZ s rx ry (x, y).
Proof.
  unfold rot, rotZ, sub.
  destruct (ry =? 0); [ | right; reflexivity].
  destruct (rx =? 1); [ | right; reflexivity].
  left. simpl. rewrite !wrap_sub_l. reflexivity.
Qed.

Lemma rot_mod k s rx ry x y :
  (k <= 64)%nat ->
  fst (rot s rx ry (x, y)) mod side k = fst (rotZ s rx ry (x, y)) mod side k /\
  snd (rot s rx ry (x, y)) mod side k = snd (rotZ s rx ry (x, y)) mod side k.
Proof.
  intros Hk. destruct (rot_wrap s rx ry x y) as [E | E]; rewrite E; simpl.
  - rewrite !side_mod_wrap by exact Hk. auto.
  - auto.
Qed.

(** Without overflow [rot] is [rotZ]. *)
Lemma rot_exact s rx ry x y :
  Int (s - 1) -> Int (s - 1 - x) -> Int (s - 1 - y) ->
  rot s rx ry (x, y) = rotZ s rx ry (x, y).
Proof.
  intros Hs Hx Hy. unfold rot, rotZ, sub.
  destruct (ry =? 0); [ | reflexivity].
  destruct (rx =? 1); [ | reflexivity].
  rewrite (wrap_small (s - 1)) by exact Hs.
  rewrite !wrap_small by assumption. reflexivity.
Qed.

(** ** Bounds and congruence of [cell] and [dist] *)

Lemma place_range s q x y :
  0 < s -> 0 <= x < s -> 0 <= y < s ->
  0 <= fst (place s q (x, y)) < 2 * s /\ 0 <= snd (place s q (x, y)) < 2 * s.
Proof.
  intros Hs Hx Hy. unfold place.
  pose proof (quadrant_bits q) as [Bx By].
  destruct (quadrant q) as [rx ry]. cbn [fst snd] in Bx, By.
  pose proof (rotZ_range s rx ry x y Hx Hy) as [Rx Ry].
  destruct (rotZ s rx ry (x, y)) as [a b]. cbn [fst snd] in *.
  assert (Cx : rx = 0 \/ rx = 1) by lia.
  assert (Cy : ry = 0 \/ ry = 1) by lia.
  destruct Cx, Cy; subst; lia.
Qed.

Lemma cell_range k d :
  0 <= fst (cell k d) < side k /\ 0 <= snd (cell k d) < side k.
Proof.
  induction k as [ | k IH]; cbn [cell].
  - rewrite side_0. simpl. lia.
  - rewrite side_S. destruct (cell k d) as [x y]. cbn [fst snd] in IH.
    apply place_range; [apply side_pos | tauto | tauto].
Qed.

Lemma cell_congr k d d' :
  d mod (side k * side k) = d' mod (side k * side k) ->
  cell k d = cell k d'.
Proof.
  induction k as [ | k IH]; intros E; cbn [cell]; [reflexivity | ].
  pose proof (side_pos k) as P. rewrite side_S in E.
  replace (2 * side k * (2 * side k)) with (side k * side k * 4) in E by ring.
  apply mod_mul_split in E; [ | nia | lia]. destruct E as [E1 E2].
  rewrite E2, (IH E1). reflexivity.
Qed.

Lemma dist_range k p : 0 <= dist k p < side k * side k.
Proof.
  revert p. induction k as [ | k IH]; intros p; cbn [dist].
  - rewrite side_0. lia.
  - rewrite side_S. pose proof (side_pos k) as P.
    set (rx := (fst p / side k) mod 2). set (ry := (snd p / side k) mod 2).
    assert (Bx : 0 <= rx <= 1) by (subst rx; zdiv).
    assert (By : 0 <= ry <= 1) by (subst ry; zdiv).
    pose proof (ordinal_range rx ry Bx By).
    pose proof (IH (rotZ (side k) rx ry p)). nia.
Qed.

Lemma dist_congr k x y x' y' :
  x mod side k = x' mod side k -> y mod side k = y' mod side k ->
  dist k (x, y) = dist k (x', y').
Proof.
  revert x y x' y'. induction k as [ | k IH]; intros x y x' y' Ex Ey;
    cbn [dist fst snd]; [reflexivity | ].
  pose proof (side_pos k) as P. rewrite side_S, Z.mul_comm in Ex, Ey.
  apply mod_mul_split in Ex; [ | lia | lia].
  apply mod_mul_split in Ey; [ | lia | lia].
  destruct Ex as [Ex1 Ex2], Ey as [Ey1 Ey2]. rewrite Ex2, Ey2. f_equal.
  set (rx := (x' / side k) mod 2). set (ry := (y' / side k) mod 2).
  pose proof (rotZ_congr (side k) rx ry x y x' y' Ex1 Ey1) as [R1 R2].
  destruct (rotZ (side k) rx ry (x, y)) as [a b].
  destruct (rotZ (side k) rx ry (x', y')) as [a' b'].
  apply IH; assumption.
Qed.

(** ** The two maps are inverse to each other *)

(** A coordinate below [2 * s] splits into its bit at [s] and the rest. *)
Lemma bit_split s x :
  0 < s -> 0 <= x < 2 * s ->
  0 <= (x / s) mod 2 <= 1 /\ x = s * ((x / s) mod 2) + x mod s.
Proof.
  intros Hs Hx.
  assert (Q : 0 <= x / s < 2).
  { split; [apply Z.div_pos; lia | apply Z.div_lt_upper_bound; lia]. }
  rewrite (Z.mod_small (x / s) 2) by exact Q.
  split; [lia | apply Z.div_mod; lia].
Qed.

Lemma mod_small_inj s a b :
  0 <= a < s -> 0 <= b < s -> a mod s = b mod s -> a = b.
Proof. intros Ha Hb E. rewrite !Z.mod_small in E; assumption. Qed.

Lemma place_eq s q p :
  place s q p
  = (fst (rotZ s (fst (quadrant q)) (snd (quadrant q)) p)
       + s * fst (quadrant q),
     snd (rotZ s (fst (quadrant q)) (snd (quadrant q)) p)
       + s * snd (quadrant q)).
Proof.
  unfold place. destruct (quadrant q) as [rx ry]. cbn [fst snd].
  destruct (rotZ s rx ry p). reflexivity.
Qed.

Lemma cell_dist k x y :
  0 <= x < side k -> 0 <= y < side k -> cell k (dist k (x, y)) = (x, y).
Proof.
  revert x y. induction k as [ | k IH]; intros x y Hx Hy.
  - rewrite side_0 in Hx, Hy. cbn [cell]. f_equal; lia.
  - rewrite side_S in Hx, Hy. cbn [cell dist fst snd].
    set (s := side k) in *. assert (Hs : 0 < s) by apply side_pos.
    destruct (bit_split s x Hs Hx) as [Bx Sx].
    destruct (bit_split s y Hs Hy) as [By Sy].
    set (rx := (x / s) mod 2) in *. set (ry := (y / s) mod 2) in *.
    pose proof (Z.mod_pos_bound x s Hs) as Lx.
    pose proof (Z.mod_pos_bound y s Hs) as Ly.
    set (p := rotZ s rx ry (x, y)).
    pose proof (dist_range k p) as Rd. fold s in Rd.
    pose proof (ordinal_range rx ry Bx By) as Ro.
    assert (Hss : 0 < s * s) by nia.
    destruct (div_mod_small (s * s) (ordinal rx ry) (dist k p) Hss Rd)
      as [Dq Dr].
    rewrite Dq, (Z.mod_small (ordinal rx ry) 4) by lia.
    (* the lower digits are those of the rotated cell, reduced below [s] *)
    assert (C : cell k (s * s * ordinal rx ry + dist k p)
                = (fst p mod s, snd p mod s)).
    { rewrite (cell_congr k _ (dist k p))
        by (fold s; rewrite Dr, Z.mod_small by exact Rd; reflexivity).
      destruct p as [a b] eqn:Ep. cbn [fst snd].
      rewrite (dist_congr k a b (a mod s) (b mod s))
        by (fold s; rewrite Z.mod_mod by lia; reflexivity).
      apply IH; fold s; apply Z.mod_pos_bound; exact Hs. }
    rewrite C, place_eq, quadrant_ordinal by assumption. cbn [fst snd].
    pose proof (rotZ_range s rx ry (fst p mod s) (snd p mod s)
                  (Z.mod_pos_bound _ _ Hs) (Z.mod_pos_bound _ _ Hs))
      as [R1 R2].
    pose proof (rotZ_congr s rx ry (fst p mod s) (snd p mod s) (fst p) (snd p)
                  (Z.mod_mod (fst p) s ltac:(lia))
                  (Z.mod_mod (snd p) s ltac:(lia)))
      as [G1 G2].
    replace (fst p, snd p) with p in G1, G2 by (destruct p; reflexivity).
    unfold p in G1 at 3, G2 at 3. rewrite rotZ_involutive in G1, G2.
    cbn [fst snd] in G1, G2.
    f_equal.
    + rewrite (mod_small_inj s _ (x mod s) R1 Lx); [lia | ].
      rewrite G1, Z.mod_mod by lia. reflexivity.
    + rewrite (mod_small_inj s _ (y mod s) R2 Ly); [lia | ].
      rewrite G2, Z.mod_mod by lia. reflexivity.
Qed.

Lemma dist_cell k d :
  0 <= d < side k * side k -> dist k (cell k d) = d.
Proof.
  revert d. induction k as [ | k IH]; intros d Hd.
  - rewrite side_0 in Hd. cbn [dist]. lia.
  - rewrite side_S in Hd. cbn [cell dist].
    set (s := side k) in *. assert (Hs : 0 < s) by apply side_pos.
    assert (Hss : 0 < s * s) by nia.
    assert (Q : 0 <= d / (s * s) < 4).
    { split; [apply Z.div_pos; lia | apply Z.div_lt_upper_bound; lia]. }
    rewrite (Z.mod_small _ 4) by exact Q.
    set (q := d / (s * s)) in *.
    pose proof (Z.mod_pos_bound d (s * s) Hss) as Rr.
    pose proof (Z.div_mod d (s * s) ltac:(lia)) as Ed. fold q in Ed.
    rewrite (cell_congr k d (d mod (s * s)))
      by (fold s; rewrite Z.mod_mod by lia; reflexivity).
    specialize (IH (d mod (s * s)) Rr).
    pose proof (cell_range k (d mod (s * s))) as [Ca Cb]. fold s in Ca, Cb.
    destruct (cell k (d mod (s * s))) as [a b]. cbn [fst snd] in Ca, Cb.
    rewrite place_eq.
    pose proof (quadrant_bits q) as [Bx By].
    pose proof (ordinal_quadrant q ltac:(lia)) as Oq.
    set (rx := fst (quadrant q)) in *. set (ry := snd (quadrant q)) in *.
    pose proof (rotZ_range s rx ry a b Ca Cb) as [Ra Rb].
    pose proof (rotZ_involutive s rx ry a b) as Inv.
    destruct (rotZ s rx ry (a, b)) as [a' b']. cbn [fst snd] in *.
    destruct (div_mod_small s rx a' Hs Ra) as [Xq Xr].
    destruct (div_mod_small s ry b' Hs Rb) as [Yq Yr].
    replace (a' + s * rx) with (s * rx + a') by ring.
    replace (b' + s * ry) with (s * ry + b') by ring.
    rewrite Xq, Yq, !Z.mod_small, Oq by lia.
    pose proof (rotZ_congr s rx ry (s * rx + a') (s * ry + b') a' b'
                  ltac:(rewrite Xr, Z.mod_small by lia; reflexivity)
                  ltac:(rewrite Yr, Z.mod_small by lia; reflexivity))
      as [G1 G2].
    rewrite Inv in G1, G2. cbn [fst snd] in G1, G2.
    destruct (rotZ s rx ry (s * rx + a', s * ry + b')) as [u v].
    cbn [fst snd] in G1, G2.
    rewrite (dist_congr k u v a b G1 G2), IH. lia.
Qed.

(** ** The shape of the curve *)

Lemma cell_mod k d : cell k (d mod (side k * side k)) = cell k d.
Proof.
  apply cell_congr. pose proof (side_pos k). rewrite Z.mod_mod by nia.
  reflexivity.
Qed.

(** The curve of order [k + 1] runs through four copies of the curve of
    order [k], one in each quadrant. *)
Lemma cell_S k q r :
  0 <= q <= 3 -> 0 <= r < side k * side k ->
  cell (S k) (side k * side k * q + r) = place (side k) q (cell k r).
Proof.
  intros Hq Hr. cbn [cell]. pose proof (side_pos k) as Hs.
  assert (Hss : 0 < side k * side k) by nia.
  destruct (div_mod_small (side k * side k) q r Hss Hr) as [Dq Dr].
  rewrite Dq, Z.mod_small by lia. f_equal.
  apply cell_congr. rewrite Dr, Z.mod_small by exact Hr. reflexivity.
Qed.

Lemma cell_first k : cell k 0 = (0, 0).
Proof.
  induction k as [ | k IH]; [reflexivity | ].
  pose proof (side_pos k) as Hs.
  replace 0 with (side k * side k * 0 + 0) at 1 by ring.
  rewrite cell_S, IH by nia. unfold place, quadrant, rotZ.
  cbn [Z.eqb Pos.eqb fst snd]. f_equal; lia.
Qed.

Lemma cell_last k : cell k (side k * side k - 1) = (side k - 1, 0).
Proof.
  induction k as [ | k IH]; [reflexivity | ].
  pose proof (side_pos k) as Hs. rewrite side_S.
  replace (2 * side k * (2 * side k) - 1)
    with (side k * side k * 3 + (side k * side k - 1)) by ring.
  rewrite cell_S, IH by nia. unfold place, quadrant, rotZ.
  cbn [Z.eqb Pos.eqb fst snd]. f_equal; lia.
Qed.

(** Each of the four placements is a rigid motion of the grid. *)
Lemma place_adjacent s q p p' :
  adjacent p p' -> adjacent (place s q p) (place s q p').
Proof.
  destruct p as [x y], p' as [x' y']. unfold adjacent, place, quadrant.
  cbn [fst snd]. intros H.
  destruct (q =? 0); [ | destruct (q =? 1); [ | destruct (q =? 2)]];
    unfold rotZ; cbn [Z.eqb Pos.eqb fst snd]; rewrite <- H; ring.
Qed.

(** Where one quadrant ends the next one starts. *)
Lemma place_junction s q :
  0 <= q <= 2 -> adjacent (place s q (s - 1, 0)) (place s (q + 1) (0, 0)).
Proof.
  intros Hq. assert (C : q = 0 \/ q = 1 \/ q = 2) by lia.
  destruct C as [C | [C | C]]; subst q; unfold adjacent, place, quadrant, rotZ;
    cbn [Z.eqb Pos.eqb Z.add Pos.add fst snd]; ring.
Qed.

Lemma cell_adjacent k d :
  0 <= d -> d + 1 < side k * side k -> adjacent (cell k d) (cell k (d + 1)).
Proof.
  revert d. induction k as [ | k IH]; intros d Hd Hd1.
  - rewrite side_0 in Hd1. lia.
  - rewrite side_S in Hd1. pose proof (side_pos k) as Hs.
    set (m := side k * side k) in *. assert (Hm : 0 < m) by (subst m; nia).
    pose proof (Z.div_mod d m ltac:(lia)) as Ed.
    pose proof (Z.mod_pos_bound d m Hm) as Hr.
    assert (Hq : 0 <= d / m < 4).
    { split; [apply Z.div_pos; lia | apply Z.div_lt_upper_bound; lia]. }
    set (q := d / m) in *. set (r := d mod m) in *.
    destruct (Z_lt_ge_dec (r + 1) m) as [L | L].
    + replace d with (m * q + r) by lia.
      replace (m * q + r + 1) with (m * q + (r + 1)) by ring.
      unfold m. rewrite !cell_S by (fold m; lia).
      apply place_adjacent, IH; fold m; lia.
    + assert (Er : r = m - 1) by lia.
      assert (Hq' : q <= 2) by nia.
      replace d with (m * q + (m - 1)) by lia.
      replace (m * q + (m - 1) + 1) with (m * (q + 1) + 0) by ring.
      unfold m. rewrite !cell_S by (fold m; lia).
      rewrite cell_last, cell_first. apply place_junction. lia.
Qed.

(** ** The loops compute the curve *)

Lemma side_61 : side 61 = 2305843009213693952.
Proof. reflexivity. Qed.

Lemma quo_side_S k : quo (side (S k)) 2 = side k.
Proof.
  unfold quo. rewrite side_S. pose proof (side_pos k).
  rewrite Z.quot_div_nonneg by lia. zdiv.
Qed.

Lemma mul_side_2 k : (k <= 61)%nat -> mul (side k) 2 = side (S k).
Proof.
  intros H. pose proof (side_le k 61 H) as L. rewrite side_61 in L.
  pose proof (side_pos k). unfold mul. rewrite side_S, wrap_small.
  - ring.
  - int_bounds. lia.
Qed.

(** Entered with [s = side k / 2], the loop of [XYToD] adds the distance of
    [(x, y)] on the curve of order [k] to [d], modulo [2^64]. *)
Lemma XYToD_loop_spec k :
  forall fuel d x y,
    (k <= 62)%nat -> (k < fuel)%nat -> Int d ->
    XYToD_loop fuel (quo (side k) 2) d x y = Some (wrap (d + dist k (x, y))).
Proof.
  induction k as [ | k IH]; intros fuel d x y Hk Hf Hd;
    (destruct fuel as [ | fuel]; [lia | ]).
  - change (quo (side 0) 2) with 0. cbn [XYToD_loop dist Z.gtb Z.compare].
    rewrite Z.add_0_r, wrap_small by exact Hd. reflexivity.
  - rewrite quo_side_S. cbn [XYToD_loop]. pose proof (side_pos k) as Hs.
    destruct (Z.gtb_spec (side k) 0) as [_ | N]; [ | lia].
    rewrite !land_side. cbn [dist fst snd].
    set (s := side k) in *.
    set (rx := (x / s) mod 2). set (ry := (y / s) mod 2).
    assert (Bx : 0 <= rx <= 1) by (subst rx; zdiv).
    assert (By : 0 <= ry <= 1) by (subst ry; zdiv).
    replace (mul 3 rx) with (3 * rx)
      by (unfold mul; rewrite wrap_small; [reflexivity | int_bounds; lia]).
    rewrite lxor_ordinal by assumption.
    unfold add, mul. rewrite wrap_mul_l, wrap_add_r.
    pose proof (rot_mod k s rx ry x y ltac:(lia)) as [M1 M2]. fold s in M1, M2.
    destruct (rot s rx ry (x, y)) as [x' y']. cbn [fst snd] in M1, M2.
    rewrite IH by (try apply wrap_Int; lia).
    rewrite wrap_add_l.
    destruct (rotZ s rx ry (x, y)) as [a b]. cbn [fst snd] in M1, M2.
    rewrite (dist_congr k x' y' a b M1 M2). do 2 f_equal. ring.
Qed.

Lemma XYToD_spec k x y :
  (k <= 62)%nat -> XYToD (side k) x y = Some (wrap (dist k (x, y))).
Proof.
  intros Hk. unfold XYToD.
  rewrite XYToD_loop_spec by (try lia; int_bounds; lia). reflexivity.
Qed.

(** Entered with [s = side i] after [i] rounds, the loop of [DToXY] holds
    the cell of [d] on the curve of order [i] and the digits of [d] not yet
    used; it leaves with the cell on the curve of order [k]. *)
Lemma DToXY_loop_spec k d :
  (k <= 62)%nat -> 0 <= d <= max_int ->
  forall fuel i,
    (i <= k)%nat -> (k - i < fuel)%nat ->
    DToXY_loop fuel (side k) (side i) (d / (side i * side i))
      (fst (cell i d)) (snd (cell i d))
    = Some (cell k d).
Proof.
  intros Hk Hd. induction fuel as [ | fuel IH]; intros i Hi Hf; [lia | ].
  cbn [DToXY_loop]. pose proof (side_pos i) as Hs.
  destruct (Z.ltb_spec (side i) (side k)) as [L | L].
  - assert (Hik : (i < k)%nat).
    { destruct (Nat.lt_ge_cases i k) as [ | G]; [assumption | ].
      pose proof (side_le k i G). lia. }
    assert (S61 : side i <= 2305843009213693952).
    { rewrite <- side_61. apply side_le. lia. }
    set (s := side i) in *. set (t := d / (s * s)).
    assert (Ht : 0 <= t <= d).
    { subst t. assert (1 <= s * s) by nia.
      split; [apply Z.div_pos; lia | ].
      apply Z.div_le_upper_bound; [lia | ].
      replace d with (1 * d) at 1 by ring.
      apply Z.mul_le_mono_nonneg_r; lia. }
    pose proof (loop_bits t ltac:(lia)) as B.
    pose proof (quadrant_bits (t mod 4)) as [Bx By].
    destruct (quadrant (t mod 4)) as [rx ry] eqn:Q.
    apply pair_equal_spec in B. destruct B as [Brx Bry].
    rewrite Bry, Brx. cbn [fst snd] in Bx, By.
    pose proof (cell_range i d) as [Cx Cy]. fold s in Cx, Cy.
    assert (Ec : cell (S i) d = place s (t mod 4) (cell i d)) by reflexivity.
    destruct (cell i d) as [x y]. cbn [fst snd] in *.
    rewrite rot_exact by (int_bounds; lia).
    unfold place in Ec. rewrite Q in Ec.
    pose proof (rotZ_range s rx ry x y Cx Cy) as [Rx Ry].
    destruct (rotZ s rx ry (x, y)) as [x' y']. cbn [fst snd] in Rx, Ry.
    assert (Mx : 0 <= s * rx <= s) by nia.
    assert (My : 0 <= s * ry <= s) by nia.
    unfold add, mul.
    rewrite (wrap_small (s * rx)), (wrap_small (s * ry)) by (int_bounds; lia).
    rewrite !wrap_small by (int_bounds; lia).
    replace (s * 2) with (side (S i)) by (rewrite side_S; fold s; ring).
    replace (quo t 4) with (d / (side (S i) * side (S i))).
    + replace (x' + s * rx) with (fst (cell (S i) d))
        by (rewrite Ec; reflexivity).
      replace (y' + s * ry) with (snd (cell (S i) d))
        by (rewrite Ec; reflexivity).
      apply IH; lia.
    + unfold quo. rewrite Z.quot_div_nonneg by lia. subst t.
      rewrite Z.div_div by nia. f_equal. rewrite side_S. fold s. ring.
  - assert (E : i = k).
    { destruct (Nat.eq_dec i k) as [ | N]; [assumption | ].
      pose proof (side_lt i k ltac:(lia)). lia. }
    subst i. destruct (cell k d). reflexivity.
Qed.

Lemma DToXY_spec k d :
  (k <= 62)%nat -> 0 <= d <= max_int -> DToXY (side k) d = Some (cell k d).
Proof.
  intros Hk Hd. unfold DToXY.
  pose proof (DToXY_loop_spec k d Hk Hd 65 0 ltac:(lia) ltac:(lia)) as H.
  change (side 0) with 1 in H. cbn [cell fst snd] in H.
  rewrite Z.mul_1_l, Z.div_1_r in H. exact H.
Qed.

(** ** Termination *)

(** More fuel does not change a result. *)
Lemma XYToD_loop_fuel fuel :
  forall fuel' s d x y r,
    (fuel <= fuel')%nat ->
    XYToD_loop fuel s d x y = Some r -> XYToD_loop fuel' s d x y = Some r.
Proof.
  induction fuel as [ | fuel IH]; intros fuel' s d x y r Hf H;
    [discriminate | ].
  destruct fuel' as [ | fuel']; [lia | ]. cbn [XYToD_loop] in *.
  destruct (s >? 0); [ | exact H].
  destruct (rot s _ _ (x, y)) as [x' y'].
  apply IH; [lia | exact H].
Qed.

Lemma DToXY_loop_fuel fuel :
  forall fuel' n s t x y r,
    (fuel <= fuel')%nat ->
    DToXY_loop fuel n s t x y = Some r -> DToXY_loop fuel' n s t x y = Some r.
Proof.
  induction fuel as [ | fuel IH]; intros fuel' n s t x y r Hf H;
    [discriminate | ].
  destruct fuel' as [ | fuel']; [lia | ]. cbn [DToXY_loop] in *.
  destruct (s <? n); [ | exact H].
  destruct (rot s _ _ (x, y)) as [x' y'].
  apply IH; [lia | exact H].
Qed.

(** [s] is halved in every round of [XYToD]. *)
Lemma XYToD_loop_returns m :
  forall fuel s d x y,
    s < side m -> (m < fuel)%nat ->
    exists r, XYToD_loop fuel s d x y = Some r.
Proof.
  induction m as [ | m IH]; intros fuel s d x y Hs Hf;
    (destruct fuel as [ | fuel]; [lia | ]); cbn [XYToD_loop];
    destruct (Z.gtb_spec s 0) as [P | N]; try (eexists; reflexivity).
  - rewrite side_0 in Hs. lia.
  - destruct (rot s _ _ (x, y)) as [x' y'].
    apply IH; [ | lia]. rewrite side_S in Hs. unfold quo.
    rewrite Z.quot_div_nonneg by lia. zdiv.
Qed.

Lemma XYToD_returns n x y : Int n -> exists d, XYToD n x y = Some d.
Proof.
  intros Hn. unfold XYToD. apply (XYToD_loop_returns 62); [ | lia].
  rewrite side_62. unfold quo. int_bounds. zdiv.
Qed.

(** [s] is doubled in every round of [DToXY]; up to [2^62] it does not
    wrap. *)
Lemma DToXY_loop_returns m :
  forall i fuel n t x y,
    (i + m = 62)%nat -> (m < fuel)%nat -> n <= side 62 ->
    exists p, DToXY_loop fuel n (side i) t x y = Some p.
Proof.
  induction m as [ | m IH]; intros i fuel n t x y Hi Hf Hn;
    (destruct fuel as [ | fuel]; [lia | ]); cbn [DToXY_loop];
    destruct (Z.ltb_spec (side i) n) as [L | G]; try (eexists; reflexivity).
  - replace i with 62%nat in L by lia. lia.
  - destruct (rot (side i) _ _ (x, y)) as [x' y'].
    rewrite mul_side_2 by lia. apply IH; [lia | lia | exact Hn].
Qed.

Lemma DToXY_returns n d : n <= side 62 -> exists p, DToXY n d = Some p.
Proof.
  intros Hn. unfold DToXY. change 1 with (side 0).
  apply (DToXY_loop_returns 62); [reflexivity | lia | exact Hn].
Qed.

(** Past [2^62] the doubled [s] wraps to [-2^63] and then to [0]. *)
Lemma wrap_side_le j : wrap (side j) <= side 62.
Proof.
  destruct (Nat.le_gt_cases j 62) as [L | G].
  - pose proof (side_le j 62 L) as H. pose proof (side_pos j).
    rewrite wrap_small; [exact H | ]. rewrite side_62 in H. int_bounds. lia.
  - destruct (Nat.eq_dec j 63) as [-> | N]; [vm_compute; discriminate | ].
    replace j with (64 + (j - 64))%nat by lia.
    unfold side at 1. rewrite Nat2Z.inj_add, Z.pow_add_r by lia.
    change (2 ^ Z.of_nat 64) with two64. unfold wrap.
    rewrite Z.add_comm, Z.mul_comm, Z_mod_plus_full. vm_compute. discriminate.
Qed.

Lemma DToXY_loop_diverges n :
  side 62 < n ->
  forall fuel i t x y, DToXY_loop fuel n (wrap (side i)) t x y = None.
Proof.
  intros Hn. induction fuel as [ | fuel IH]; intros i t x y; [reflexivity | ].
  cbn [DToXY_loop]. pose proof (wrap_side_le i) as W.
  destruct (Z.ltb_spec (wrap (side i)) n) as [_ | G]; [ | lia].
  destruct (rot (wrap (side i)) _ _ (x, y)) as [x' y'].
  replace (mul (wrap (side i)) 2) with (wrap (side (S i))); [apply IH | ].
  unfold mul. rewrite wrap_mul_l, side_S. f_equal. ring.
Qed.

Lemma DToXY_diverges n d :
  side 62 < n -> forall fuel, DToXY_loop fuel n 1 d 0 0 = None.
Proof.
  intros Hn fuel. change 1 with (wrap (side 0)) at 1.
  apply DToXY_loop_diverges. exact Hn.
Qed.

(** The fixed fuel of [XYToD] and [DToXY] loses no result. *)
Lemma XYToD_terminates_iff n x y :
  Int n -> (XYToD_terminates n x y <-> exists d, XYToD n x y = Some d).
Proof.
  intros Hn. split.
  - intros _. apply XYToD_returns. exact Hn.
  - intros [d H]. exists 64%nat, d. exact H.
Qed.

Lemma DToXY_terminates_iff n d :
  DToXY_terminates n d <-> exists p, DToXY n d = Some p.
Proof.
  split.
  - intros [fuel [p H]]. destruct (Z_le_gt_dec n (side 62)) as [L | G].
    + apply DToXY_returns. exact L.
    + rewrite DToXY_diverges in H by lia. discriminate.
  - intros [p H]. exists 65%nat, p. exact H.
Qed.

(** ** Grids that fit *)

Lemma pow2_side n : pow2 n -> Int n -> exists k, (k <= 62)%nat /\ n = side k.
Proof.
  intros [k E] Hn. exists k. split; [ | exact E].
  apply side_Int. unfold side. rewrite <- E. exact Hn.
Qed.

(** The grids whose squared side is an [int]: [n <= 2^31]. *)
Lemma pow2_side_small n :
  pow2 n -> n <= 2 ^ 31 ->
  exists k, (k <= 31)%nat /\ n = side k /\ side k * side k <= 2 ^ 62.
Proof.
  intros [k E] Hn. fold (side k) in E. subst n. exists k.
  assert (Hk : (k <= 31)%nat).
  { destruct (Nat.le_gt_cases k 31) as [L | G]; [exact L | ].
    pose proof (side_le 32 k G) as H. change (side 32) with (2 ^ 32) in H.
    lia. }
  pose proof (side_pos k). repeat split; [exact Hk | ].
  change (2 ^ 62) with (2 ^ 31 * 2 ^ 31). nia.
Qed.

Lemma XYToD_small k x y :
  (k <= 62)%nat -> side k * side k <= 2 ^ 62 ->
  XYToD (side k) x y = Some (dist k (x, y)).
Proof.
  intros Hk Hs. rewrite XYToD_spec by exact Hk.
  pose proof (dist_range k (x, y)). rewrite wrap_small; [reflexivity | ].
  int_bounds. lia.
Qed.

(** ** The claims *)

(** C1 (as amended).  For every power of two [n] up to [2^31], the largest
    grid whose squared side is an [int], and all [x], [y] in [[0, n-1]],
    [XYToD] returns a distance that [DToXY] maps back to [(x, y)]. *)
Theorem DToXY_XYToD n x y :
  pow2 n -> n <= 2 ^ 31 -> in_grid n x -> in_grid n y ->
  exists d, XYToD n x y = Some d /\ DToXY n d = Some (x, y).
Proof.
  intros Hp Hn Hx Hy.
  destruct (pow2_side_small n Hp Hn) as [k [Hk [-> Hs]]].
  unfold in_grid in *. exists (dist k (x, y)).
  pose proof (dist_range k (x, y)) as R.
  rewrite XYToD_small, DToXY_spec by (try (unfold max_int, two63); lia).
  rewrite cell_dist by lia. split; reflexivity.
Qed.

Lemma DToXY_XYToD_witness :
  in_grid 8 5 /\ in_grid 8 2 /\
  exists d, XYToD 8 5 2 = Some d /\ DToXY 8 d = Some (5, 2).
Proof.
  assert (G5 : in_grid 8 5) by (unfold in_grid; lia).
  assert (G2 : in_grid 8 2) by (unfold in_grid; lia).
  split; [exact G5 | split; [exact G2 | ]].
  apply (DToXY_XYToD 8 5 2); [exists 3%nat; reflexivity | lia | | ];
    assumption.
Defined.

(** C1 as stated fails on the grid of side [2^32]: the distance of the cell
    [(2^31, 0)] overflows, and [DToXY] maps what [XYToD] returns to another
    cell. *)
Lemma DToXY_XYToD_overflow :
  pow2 (2 ^ 32) /\ Int (2 ^ 32) /\ in_grid (2 ^ 32) (2 ^ 31) /\
  in_grid (2 ^ 32) 0 /\
  XYToD (2 ^ 32) (2 ^ 31) 0 = Some (-1537228672809129302) /\
  DToXY (2 ^ 32) (-1537228672809129302) = Some (2147483647, 1) /\
  ~ (exists d, XYToD (2 ^ 32) (2 ^ 31) 0 = Some d /\
               DToXY (2 ^ 32) d = Some (2 ^ 31, 0)).
Proof.
  assert (E : XYToD (2 ^ 32) (2 ^ 31) 0 = Some (-1537228672809129302))
    by (vm_compute; reflexivity).
  assert (F : DToXY (2 ^ 32) (-1537228672809129302) = Some (2147483647, 1))
    by (vm_compute; reflexivity).
  split; [exists 32%nat; reflexivity | ].
  split; [int_bounds; lia | ].
  split; [unfold in_grid; lia | ].
  split; [unfold in_grid; lia | ].
  split; [exact E | split; [exact F | ]].
  intros [d [H1 H2]]. rewrite E in H1. injection H1 as <-.
  rewrite F in H2. injection H2 as H2 _. vm_compute in H2. discriminate H2.
Qed.

(** C2.  For every power of two [n] and every distance [d] in [[0, n^2-1]],
    [DToXY] returns a cell of the grid whose distance by [XYToD] is [d]
    again. *)
Theorem XYToD_DToXY n d :
  Int n -> Int d -> pow2 n -> 0 <= d <= n * n - 1 ->
  exists x y,
    DToXY n d = Some (x, y) /\ in_grid n x /\ in_grid n y /\
    XYToD n x y = Some d.
Proof.
  intros Hn Hd Hp Hr. destruct (pow2_side n Hp Hn) as [k [Hk ->]].
  pose proof (cell_range k d) as [Rx Ry].
  destruct (cell k d) as [x y] eqn:C. cbn [fst snd] in Rx, Ry. exists x, y.
  rewrite DToXY_spec, XYToD_spec by (unfold Int, min_int in Hd; lia).
  rewrite <- C, dist_cell, wrap_small by (assumption || lia).
  unfold in_grid. repeat split; lia.
Qed.

Lemma XYToD_DToXY_witness :
  Int 8 /\ Int 37 /\ 0 <= 37 <= 8 * 8 - 1 /\
  exists x y,
    DToXY 8 37 = Some (x, y) /\ in_grid 8 x /\ in_grid 8 y /\
    XYToD 8 x y = Some 37.
Proof.
  assert (I8 : Int 8) by (int_bounds; lia).
  assert (I37 : Int 37) by (int_bounds; lia).
  assert (R : 0 <= 37 <= 8 * 8 - 1) by lia.
  split; [exact I8 | split; [exact I37 | split; [exact R | ]]].
  apply (XYToD_DToXY 8 37 I8 I37); [exists 3%nat; reflexivity | exact R].
Defined.

(** C3 (as amended).  On the grid of side 4 the first five cells of the
    curve are [(0,0)], [(1,0)], [(1,1)], [(0,1)], [(0,2)]: the curve leaves
    the origin along the x axis and enters the second quadrant upward. *)
Theorem DToXY_order2 :
  DToXY 4 0 = Some (0, 0) /\ DToXY 4 1 = Some (1, 0) /\
  DToXY 4 2 = Some (1, 1) /\ DToXY 4 3 = Some (0, 1) /\
  DToXY 4 4 = Some (0, 2).
Proof. vm_compute. repeat split; reflexivity. Qed.

(** C3 as stated gives [(0,1)], [(1,0)] and [(2,0)] for [d = 1, 3, 4]; the
    code returns the transposed cells. *)
Lemma DToXY_order2_transposed :
  DToXY 4 1 <> Some (0, 1) /\ DToXY 4 3 <> Some (1, 0) /\
  DToXY 4 4 <> Some (2, 0).
Proof. vm_compute. repeat split; discriminate. Qed.

(** C4 (as amended).  For every power of two [n] up to [2^31], [XYToD]
    maps the cells of the grid into [[0, n^2-1]], takes different cells to
    different distances, and attains every distance of that range. *)
Theorem XYToD_bijection n :
  pow2 n -> n <= 2 ^ 31 ->
  (forall x y, in_grid n x -> in_grid n y ->
     exists d, XYToD n x y = Some d /\ 0 <= d <= n * n - 1) /\
  (forall x y x' y',
     in_grid n x -> in_grid n y -> in_grid n x' -> in_grid n y' ->
     XYToD n x y = XYToD n x' y' -> (x, y) = (x', y')) /\
  (forall d, 0 <= d <= n * n - 1 ->
     exists x y, in_grid n x /\ in_grid n y /\ XYToD n x y = Some d).
Proof.
  intros Hp Hn. destruct (pow2_side_small n Hp Hn) as [k [Hk [-> Hs]]].
  unfold in_grid. split; [ | split].
  - intros x y _ _. exists (dist k (x, y)).
    pose proof (dist_range k (x, y)). rewrite XYToD_small by lia.
    split; [reflexivity | lia].
  - intros x y x' y' Hx Hy Hx' Hy' E.
    rewrite !XYToD_small in E by lia. injection E as E.
    rewrite <- (cell_dist k x y), <- (cell_dist k x' y'), E by lia.
    reflexivity.
  - intros d Hd. pose proof (cell_range k d) as [Rx Ry].
    destruct (cell k d) as [x y] eqn:C. cbn [fst snd] in Rx, Ry.
    exists x, y. rewrite XYToD_small, <- C, dist_cell by lia.
    repeat split; lia.
Qed.

Lemma XYToD_bijection_witness :
  (forall x y, in_grid 4 x -> in_grid 4 y ->
     exists d, XYToD 4 x y = Some d /\ 0 <= d <= 4 * 4 - 1) /\
  (forall x y x' y',
     in_grid 4 x -> in_grid 4 y -> in_grid 4 x' -> in_grid 4 y' ->
     XYToD 4 x y = XYToD 4 x' y' -> (x, y) = (x', y')) /\
  (forall d, 0 <= d <= 4 * 4 - 1 ->
     exists x y, in_grid 4 x /\ in_grid 4 y /\ XYToD 4 x y = Some d).
Proof. apply (XYToD_bijection 4); [exists 2%nat; reflexivity | lia]. Defined.

(** C4 as stated fails on the grid of side [2^32]: the cell [(2^31, 1)] is
    sent to a negative number, outside [[0, n^2-1]], and the distance [2^63]
    of that range is the image of no cell, since every result is an [int]. *)
Lemma XYToD_bijection_overflow :
  pow2 (2 ^ 32) /\ in_grid (2 ^ 32) (2 ^ 31) /\ in_grid (2 ^ 32) 1 /\
  XYToD (2 ^ 32) (2 ^ 31) 1 = Some (-1537228672809129303) /\
  0 <= 2 ^ 63 <= 2 ^ 32 * 2 ^ 32 - 1 /\
  forall x y, XYToD (2 ^ 32) x y <> Some (2 ^ 63).
Proof.
  split; [exists 32%nat; reflexivity | ].
  split; [unfold in_grid; lia | ].
  split; [unfold in_grid; lia | ].
  split; [vm_compute; reflexivity | ].
  split; [lia | ].
  intros x y H. change (2 ^ 32) with (side 32) in H.
  rewrite XYToD_spec in H by lia.
  pose proof (wrap_Int (dist 32 (x, y))) as W.
  remember (wrap (dist 32 (x, y))) as w eqn:Ew. clear Ew.
  assert (E : w = 2 ^ 63) by congruence.
  int_bounds. lia.
Qed.

(** C5.  For every power of two [n] and every [d] in [[0, n^2-2]], the cells
    that [DToXY] returns for [d] and [d + 1] are at Euclidean distance 1. *)
Theorem DToXY_locality n d :
  Int n -> Int d -> Int (d + 1) -> pow2 n -> 0 <= d <= n * n - 2 ->
  exists x y x' y',
    DToXY n d = Some (x, y) /\ DToXY n (d + 1) = Some (x', y') /\
    (x' - x) ^ 2 + (y' - y) ^ 2 = 1.
Proof.
  intros Hn Hd Hd1 Hp Hr. destruct (pow2_side n Hp Hn) as [k [Hk ->]].
  pose proof (cell_adjacent k d ltac:(lia) ltac:(lia)) as A.
  unfold adjacent in A.
  destruct (cell k d) as [x y] eqn:C.
  destruct (cell k (d + 1)) as [x' y'] eqn:C'. cbn [fst snd] in A.
  exists x, y, x', y'.
  rewrite !DToXY_spec, C, C' by (unfold Int, min_int in *; lia).
  rewrite !Z.pow_2_r. repeat split. exact A.
Qed.

Lemma DToXY_locality_witness :
  Int 8 /\ Int 15 /\ Int (15 + 1) /\ 0 <= 15 <= 8 * 8 - 2 /\
  exists x y x' y',
    DToXY 8 15 = Some (x, y) /\ DToXY 8 (15 + 1) = Some (x', y') /\
    (x' - x) ^ 2 + (y' - y) ^ 2 = 1.
Proof.
  assert (I8 : Int 8) by (int_bounds; lia).
  assert (I15 : Int 15) by (int_bounds; lia).
  assert (I16 : Int (15 + 1)) by (int_bounds; lia).
  assert (R : 0 <= 15 <= 8 * 8 - 2) by lia.
  split; [exact I8 | split; [exact I15 | split; [exact I16 | ]]].
  split; [exact R | ].
  apply (DToXY_locality 8 15 I8 I15 I16); [exists 3%nat; reflexivity | ].
  exact R.
Defined.

(** C6 (as amended).  For every power of two [n] up to [2^31] and all [x],
    [y] in [[0, n-1]], [XYToD] returns a distance in [[0, n^2-1]]. *)
Theorem XYToD_range n x y :
  pow2 n -> n <= 2 ^ 31 -> in_grid n x -> in_grid n y ->
  exists d, XYToD n x y = Some d /\ 0 <= d <= n * n - 1.
Proof.
  intros Hp Hn _ _. destruct (pow2_side_small n Hp Hn) as [k [Hk [-> Hs]]].
  exists (dist k (x, y)). pose proof (dist_range k (x, y)).
  rewrite XYToD_small by lia. split; [reflexivity | lia].
Qed.

Lemma XYToD_range_witness :
  in_grid 16 9 /\ in_grid 16 14 /\
  exists d, XYToD 16 9 14 = Some d /\ 0 <= d <= 16 * 16 - 1.
Proof.
  assert (G9 : in_grid 16 9) by (unfold in_grid; lia).
  assert (G14 : in_grid 16 14) by (unfold in_grid; lia).
  split; [exact G9 | split; [exact G14 | ]].
  apply (XYToD_range 16 9 14); [exists 4%nat; reflexivity | lia | | ];
    assumption.
Defined.

(** C6 as stated fails on the grid of side [2^32]: [3 * 2^62] does not fit an
    [int], and the distance of the cell [(2^32 - 1, 0)] comes out negative. *)
Lemma XYToD_range_overflow :
  pow2 (2 ^ 32) /\ in_grid (2 ^ 32) (2 ^ 32 - 1) /\ in_grid (2 ^ 32) 0 /\
  XYToD (2 ^ 32) (2 ^ 32 - 1) 0 = Some (-1) /\
  ~ (exists d, XYToD (2 ^ 32) (2 ^ 32 - 1) 0 = Some d /\
               0 <= d <= 2 ^ 32 * 2 ^ 32 - 1).
Proof.
  assert (E : XYToD (2 ^ 32) (2 ^ 32 - 1) 0 = Some (-1))
    by (vm_compute; reflexivity).
  split; [exists 32%nat; reflexivity | ].
  split; [unfold in_grid; lia | ].
  split; [unfold in_grid; lia | ].
  split; [exact E | ].
  intros [d [H R]]. rewrite E in H. injection H as <-. lia.
Qed.

(** C7.  [rot] leaves the pair alone when [ry = 1]; when [ry = 0] and
    [rx = 1] it replaces [(x, y)] by [(n-1-x, n-1-y)], computed on [int], and
    then swaps the two; when [ry = 0] and [rx = 0] it only swaps them. *)
Theorem rot_cases n x y :
  (forall rx, rot n rx 1 (x, y) = (x, y)) /\
  rot n 1 0 (x, y) = (sub (sub n 1) y, sub (sub n 1) x) /\
  rot n 0 0 (x, y) = (y, x).
Proof. repeat split. Qed.

(** The subtractions of [rot] are exact whenever their results fit. *)
Lemma rot_reflect_exact n x y :
  Int (n - 1) -> Int (n - 1 - x) -> Int (n - 1 - y) ->
  rot n 1 0 (x, y) = (n - 1 - y, n - 1 - x).
Proof. intros Hn Hx Hy. rewrite rot_exact by assumption. reflexivity. Qed.

(** C8 (as amended).  [XYToD] returns on every input.  [DToXY] returns
    whenever [n <= 2^62], which covers every [n <= 0] and every power of two,
    whatever [d] is; for a larger [n] it never leaves its loop. *)
Theorem calls_terminate n x y d :
  Int n ->
  (exists r, XYToD n x y = Some r) /\
  (n <= 2 ^ 62 -> exists p, DToXY n d = Some p) /\
  (2 ^ 62 < n -> ~ DToXY_terminates n d).
Proof.
  intros Hn. split; [apply XYToD_returns; exact Hn | split].
  - intros L. apply DToXY_returns. rewrite side_62. lia.
  - intros G [fuel [p H]].
    rewrite DToXY_diverges in H by (rewrite side_62; lia). discriminate H.
Qed.

Lemma calls_terminate_witness :
  Int 12 /\
  (exists r, XYToD 12 (-3) 40 = Some r) /\
  (12 <= 2 ^ 62 -> exists p, DToXY 12 (-7) = Some p) /\
  (2 ^ 62 < 12 -> ~ DToXY_terminates 12 (-7)).
Proof.
  assert (I : Int 12) by (int_bounds; lia).
  split; [exact I | apply (calls_terminate 12 (-3) 40 (-7) I)].
Defined.

(** C8 as stated fails for [n = 2^63 - 1], the largest [int]: [s] doubles up
    to [2^62], wraps to [-2^63] and then to [0], and [0 < n] for ever. *)
Lemma DToXY_max_int_diverges :
  Int max_int /\ Int 0 /\ ~ DToXY_terminates max_int 0.
Proof.
  split; [int_bounds; lia | split; [int_bounds; lia | ]].
  intros [fuel [p H]]. rewrite DToXY_diverges in H; [discriminate H | ].
  rewrite side_62. unfold max_int, two63. lia.
Qed.

(** C9.  For every power of two [n] and every [d >= 0], also beyond
    [n^2 - 1], [DToXY] returns a cell of the grid. *)
Theorem DToXY_in_grid n d :
  Int n -> Int d -> pow2 n -> 0 <= d ->
  exists x y, DToXY n d = Some (x, y) /\ in_grid n x /\ in_grid n y.
Proof.
  intros Hn Hd Hp H0. destruct (pow2_side n Hp Hn) as [k [Hk ->]].
  pose proof (cell_range k d) as [Rx Ry].
  destruct (cell k d) as [x y] eqn:C. cbn [fst snd] in Rx, Ry.
  exists x, y. rewrite DToXY_spec, C by (unfold Int in Hd; lia).
  unfold in_grid. repeat split; lia.
Qed.

Lemma DToXY_in_grid_witness :
  Int 4 /\ Int 1000 /\ 0 <= 1000 /\
  exists x y, DToXY 4 1000 = Some (x, y) /\ in_grid 4 x /\ in_grid 4 y.
Proof.
  assert (I4 : Int 4) by (int_bounds; lia).
  assert (Id : Int 1000) by (int_bounds; lia).
  assert (P : 0 <= 1000) by lia.
  split; [exact I4 | split; [exact Id | split; [exact P | ]]].
  apply (DToXY_in_grid 4 1000 I4 Id); [exists 2%nat; reflexivity | exact P].
Defined.

(** C10.  For every power of two [n] and every [d >= 0], [DToXY] returns for
    [d] the cell it returns for [d mod n^2]. *)
Theorem DToXY_mod n d :
  Int n -> Int d -> pow2 n -> 0 <= d ->
  exists p, DToXY n d = Some p /\ DToXY n (d mod (n * n)) = Some p.
Proof.
  intros Hn Hd Hp H0. destruct (pow2_side n Hp Hn) as [k [Hk ->]].
  pose proof (side_pos k) as Hs.
  assert (Hm : 0 <= d mod (side k * side k) <= d).
  { split; [apply Z.mod_pos_bound; nia | apply Z.mod_le; nia]. }
  exists (cell k d).
  rewrite !DToXY_spec, cell_mod by (unfold Int in Hd; lia).
  split; reflexivity.
Qed.

Lemma DToXY_mod_witness :
  Int 4 /\ Int 1000 /\ 0 <= 1000 /\
  exists p, DToXY 4 1000 = Some p /\ DToXY 4 (1000 mod (4 * 4)) = Some p.
Proof.
  assert (I4 : Int 4) by (int_bounds; lia).
  assert (Id : Int 1000) by (int_bounds; lia).
  assert (P : 0 <= 1000) by lia.
  split; [exact I4 | split; [exact Id | split; [exact P | ]]].
  apply (DToXY_mod 4 1000 I4 Id); [exists 2%nat; reflexivity | exact P].
Defined.

(** ** Further properties of the three functions *)

Lemma wrap_sub_r a b : wrap (a - wrap b) = wrap (a - b).
Proof.
  apply wrap_eq_mod.
  rewrite Zminus_mod, wrap_mod, <- Zminus_mod. reflexivity.
Qed.

Lemma sub_sub_cancel a x : Int x -> sub a (sub a x) = x.
Proof.
  intros Hx. unfold sub. rewrite wrap_sub_r.
  replace (a - (a - x)) with x by ring. apply wrap_small. exact Hx.
Qed.

(** [rot] undoes itself: called twice with the same scale and bits it hands
    back the pair it was given, also when [n - 1 - x] wraps around. *)
Theorem rot_involutive n rx ry x y :
  Int x -> Int y -> rot n rx ry (rot n rx ry (x, y)) = (x, y).
Proof.
  intros Hx Hy. unfold rot.
  destruct (ry =? 0); [destruct (rx =? 1) | ]; try reflexivity.
  rewrite !sub_sub_cancel by assumption. reflexivity.
Qed.

Lemma rot_involutive_witness :
  Int 5 /\ Int 2 /\ rot 8 1 0 (rot 8 1 0 (5, 2)) = (5, 2).
Proof.
  assert (I5 : Int 5) by (int_bounds; lia).
  assert (I2 : Int 2) by (int_bounds; lia).
  split; [exact I5 | split; [exact I2 | ]].
  apply (rot_involutive 8 1 0 5 2 I5 I2).
Defined.

(** [rot] keeps a cell of the [n] by [n] square inside that square. *)
Theorem rot_in_grid n rx ry x y :
  Int n -> in_grid n x -> in_grid n y ->
  in_grid n (fst (rot n rx ry (x, y))) /\
  in_grid n (snd (rot n rx ry (x, y))).
Proof.
  unfold in_grid. intros Hn Hx Hy.
  rewrite rot_exact by (int_bounds; lia).
  pose proof (rotZ_range n rx ry x y ltac:(lia) ltac:(lia)). lia.
Qed.

Lemma rot_in_grid_witness :
  Int 8 /\ in_grid 8 5 /\ in_grid 8 2 /\
  in_grid 8 (fst (rot 8 1 0 (5, 2))) /\ in_grid 8 (snd (rot 8 1 0 (5, 2))).
Proof.
  assert (I8 : Int 8) by (int_bounds; lia).
  assert (G5 : in_grid 8 5) by (unfold in_grid; lia).
  assert (G2 : in_grid 8 2) by (unfold in_grid; lia).
  split; [exact I8 | split; [exact G5 | split; [exact G2 | ]]].
  apply (rot_in_grid 8 1 0 5 2 I8 G5 G2).
Defined.

(** On a grid of side at most 1, also a zero or negative one, neither loop
    runs: [XYToD] returns [0] and [DToXY] returns [(0, 0)] whatever the other
    arguments are. *)
Theorem degenerate_grid n x y d :
  n <= 1 -> XYToD n x y = Some 0 /\ DToXY n d = Some (0, 0).
Proof.
  intros Hn. unfold XYToD, DToXY.
  change 64%nat with (S 63). change 65%nat with (S 64).
  cbn [XYToD_loop DToXY_loop].
  destruct (Z.gtb_spec (quo n 2) 0) as [P | _].
  - unfold quo in P. zdiv.
  - destruct (Z.ltb_spec 1 n) as [L | _]; [lia | split; reflexivity].
Qed.

Lemma degenerate_grid_witness :
  -4 <= 1 /\ XYToD (-4) 9 9 = Some 0 /\ DToXY (-4) 9 = Some (0, 0).
Proof.
  assert (H : -4 <= 1) by lia.
  split; [exact H | apply (degenerate_grid (-4) 9 9 9 H)].
Defined.

(** [XYToD] reads only the bits of [x] and [y] below [n]: coordinates outside
    the grid, negative ones too, give the distance of the cell they are
    congruent to modulo [n]. *)
Theorem XYToD_mod n x y :
  Int n -> pow2 n ->
  exists d, XYToD n x y = Some d /\ XYToD n (x mod n) (y mod n) = Some d.
Proof.
  intros Hn Hp. destruct (pow2_side n Hp Hn) as [k [Hk ->]].
  pose proof (side_pos k) as Hs.
  exists (wrap (dist k (x, y))). rewrite !XYToD_spec by exact Hk.
  split; [reflexivity | ]. do 2 f_equal.
  apply dist_congr; apply Z.mod_mod; lia.
Qed.

Lemma XYToD_mod_witness :
  Int 4 /\
  exists d, XYToD 4 (-1) 6 = Some d /\
            XYToD 4 ((-1) mod 4) (6 mod 4) = Some d.
Proof.
  assert (I4 : Int 4) by (int_bounds; lia).
  split; [exact I4 | ].
  apply (XYToD_mod 4 (-1) 6 I4). exists 2%nat. reflexivity.
Defined.

(** The curve starts in the corner [(0, 0)] and ends in the corner
    [(n - 1, 0)] of the same edge. *)
Theorem DToXY_endpoints n :
  pow2 n -> n <= 2 ^ 31 ->
  DToXY n 0 = Some (0, 0) /\ DToXY n (n * n - 1) = Some (n - 1, 0).
Proof.
  intros Hp Hn. destruct (pow2_side_small n Hp Hn) as [k [Hk [-> Hs]]].
  pose proof (side_pos k) as P.
  rewrite !DToXY_spec by (try (unfold max_int, two63); nia).
  rewrite cell_first, cell_last. split; reflexivity.
Qed.

Lemma DToXY_endpoints_witness :
  16 <= 2 ^ 31 /\
  DToXY 16 0 = Some (0, 0) /\ DToXY 16 (16 * 16 - 1) = Some (16 - 1, 0).
Proof.
  assert (H : 16 <= 2 ^ 31) by lia.
  split; [exact H | ].
  apply (DToXY_endpoints 16); [exists 4%nat; reflexivity | exact H].
Defined.

(** [XYToD] gives the two end cells the distances [0] and [n^2 - 1]. *)
Theorem XYToD_endpoints n :
  pow2 n -> n <= 2 ^ 31 ->
  XYToD n 0 0 = Some 0 /\ XYToD n (n - 1) 0 = Some (n * n - 1).
Proof.
  intros Hp Hn. destruct (pow2_side_small n Hp Hn) as [k [Hk [-> Hs]]].
  pose proof (side_pos k) as P.
  rewrite !XYToD_small by lia.
  rewrite <- (cell_first k) at 1. rewrite <- (cell_last k).
  rewrite !dist_cell by nia. split; reflexivity.
Qed.

Lemma XYToD_endpoints_witness :
  16 <= 2 ^ 31 /\
  XYToD 16 0 0 = Some 0 /\ XYToD 16 (16 - 1) 0 = Some (16 * 16 - 1).
Proof.
  assert (H : 16 <= 2 ^ 31) by lia.
  split; [exact H | ].
  apply (XYToD_endpoints 16); [exists 4%nat; reflexivity | exact H].
Defined.

(** Different distances of [[0, n^2-1]] are never sent to the same cell. *)
Theorem DToXY_injective n d d' :
  Int n -> Int d -> Int d' -> pow2 n ->
  0 <= d <= n * n - 1 -> 0 <= d' <= n * n - 1 ->
  DToXY n d = DToXY n d' -> d = d'.
Proof.
  intros Hn Hd Hd' Hp Hr Hr' E. destruct (pow2_side n Hp Hn) as [k [Hk ->]].
  rewrite !DToXY_spec in E by (unfold Int in *; lia).
  assert (C : cell k d = cell k d') by congruence.
  rewrite <- (dist_cell k d), <- (dist_cell k d'), C by lia. reflexivity.
Qed.

Lemma DToXY_injective_witness :
  Int 4 /\ Int 7 /\ 0 <= 7 <= 4 * 4 - 1 /\ DToXY 4 7 = DToXY 4 7 /\ 7 = 7.
Proof.
  assert (I4 : Int 4) by (int_bounds; lia).
  assert (I7 : Int 7) by (int_bounds; lia).
  assert (R : 0 <= 7 <= 4 * 4 - 1) by lia.
  assert (E : DToXY 4 7 = DToXY 4 7) by reflexivity.
  split; [exact I4 | split; [exact I7 | split; [exact R | ]]].
  split; [exact E | ].
  apply (DToXY_injective 4 7 7 I4 I7 I7); [exists 2%nat; reflexivity | | | ];
    assumption.
Defined.

(** Doubling the side transposes the curve: on the first [n^2] distances the
    grid of side [2 * n] holds the cells of the grid of side [n] with [x] and
    [y] exchanged. *)
Theorem DToXY_double n d :
  Int (2 * n) -> Int d -> pow2 n -> 0 <= d <= n * n - 1 ->
  exists x y, DToXY n d = Some (x, y) /\ DToXY (2 * n) d = Some (y, x).
Proof.
  intros Hn Hd [k E] Hr. fold (side k) in E. subst n.
  rewrite <- side_S in *. pose proof (side_Int (S k) Hn) as Hk.
  destruct (cell k d) as [x y] eqn:C. exists x, y.
  rewrite !DToXY_spec by (unfold Int in Hd; lia).
  replace d with (side k * side k * 0 + d) at 2 by ring.
  rewrite cell_S, C by lia. split; [reflexivity | ].
  unfold place, quadrant, rotZ. cbn [Z.eqb Pos.eqb]. do 2 f_equal; ring.
Qed.

Lemma DToXY_double_witness :
  Int (2 * 4) /\ Int 7 /\ 0 <= 7 <= 4 * 4 - 1 /\
  exists x y, DToXY 4 7 = Some (x, y) /\ DToXY (2 * 4) 7 = Some (y, x).
Proof.
  assert (I8 : Int (2 * 4)) by (int_bounds; lia).
  assert (I7 : Int 7) by (int_bounds; lia).
  assert (R : 0 <= 7 <= 4 * 4 - 1) by lia.
  split; [exact I8 | split; [exact I7 | split; [exact R | ]]].
  apply (DToXY_double 4 7 I8 I7); [exists 2%nat; reflexivity | exact R].
Defined.

Lemma place_mirror s q a b :
  0 <= q <= 3 ->
  place s (3 - q) (s - 1 - a, b)
  = (2 * s - 1 - fst (place s q (a, b)), snd (place s q (a, b))).
Proof.
  intros Hq. assert (C : q = 0 \/ q = 1 \/ q = 2 \/ q = 3) by lia.
  destruct C as [C | [C | [C | C]]]; subst q;
    [change (3 - 0) with 3 | change (3 - 1) with 2
     | change (3 - 2) with 1 | change (3 - 3) with 0];
    unfold place, quadrant, rotZ; cbn [Z.eqb Pos.eqb fst snd];
    f_equal; ring.
Qed.

Lemma cell_mirror k d :
  0 <= d < side k * side k ->
  cell k (side k * side k - 1 - d)
  = (side k - 1 - fst (cell k d), snd (cell k d)).
Proof.
  revert d. induction k as [ | k IH]; intros d Hd.
  - reflexivity.
  - rewrite side_S in *. pose proof (side_pos k) as Hs.
    set (s := side k) in *. assert (Hm : 0 < s * s) by nia.
    pose proof (Z.div_mod d (s * s) ltac:(lia)) as Ed.
    pose proof (Z.mod_pos_bound d (s * s) Hm) as Hr.
    assert (Hq : 0 <= d / (s * s) < 4).
    { split; [apply Z.div_pos; lia | apply Z.div_lt_upper_bound; lia]. }
    set (q := d / (s * s)) in *. set (r := d mod (s * s)) in *.
    replace (2 * s * (2 * s) - 1 - d)
      with (s * s * (3 - q) + (s * s - 1 - r)) by lia.
    replace (cell (S k) d) with (cell (S k) (s * s * q + r))
      by (f_equal; lia).
    unfold s. rewrite !cell_S by (fold s; lia). fold s.
    rewrite IH by lia. fold s.
    destruct (cell k r) as [a b]. cbn [fst snd]. apply place_mirror. lia.
Qed.

(** The curve is its own mirror image: walking it backwards from the far
    end visits the cells reflected in the vertical axis of the grid. *)
Theorem DToXY_mirror n d :
  pow2 n -> n <= 2 ^ 31 -> 0 <= d <= n * n - 1 ->
  exists x y,
    DToXY n d = Some (x, y) /\ DToXY n (n * n - 1 - d) = Some (n - 1 - x, y).
Proof.
  intros Hp Hn Hr. destruct (pow2_side_small n Hp Hn) as [k [Hk [-> Hs]]].
  destruct (cell k d) as [x y] eqn:C. exists x, y.
  rewrite !DToXY_spec by (try (unfold max_int, two63); lia).
  rewrite cell_mirror, C by lia. split; reflexivity.
Qed.

Lemma DToXY_mirror_witness :
  8 <= 2 ^ 31 /\ 0 <= 21 <= 8 * 8 - 1 /\
  exists x y,
    DToXY 8 21 = Some (x, y) /\
    DToXY 8 (8 * 8 - 1 - 21) = Some (8 - 1 - x, y).
Proof.
  assert (H : 8 <= 2 ^ 31) by lia.
  assert (R : 0 <= 21 <= 8 * 8 - 1) by lia.
  split; [exact H | split; [exact R | ]].
  apply (DToXY_mirror 8 21); [exists 3%nat; reflexivity | exact H | exact R].
Defined.

(** The curve fills the four quadrants one after the other: lower left,
    upper left, upper right, lower right. *)
Theorem DToXY_quadrants s d :
  Int (2 * s) -> Int d -> pow2 s -> 0 <= d <= 4 * (s * s) - 1 ->
  exists x y,
    DToXY (2 * s) d = Some (x, y) /\
    (d < s * s -> x < s /\ y < s) /\
    (s * s <= d < 2 * (s * s) -> x < s /\ s <= y) /\
    (2 * (s * s) <= d < 3 * (s * s) -> s <= x /\ s <= y) /\
    (3 * (s * s) <= d -> s <= x /\ y < s).
Proof.
  intros Hn Hd [k E] Hr. fold (side k) in E. subst s.
  rewrite <- side_S in Hn |- *. pose proof (side_Int (S k) Hn) as Hk.
  pose proof (side_pos k) as Hs. set (s := side k) in *.
  assert (Hm : 0 < s * s) by nia.
  pose proof (Z.div_mod d (s * s) ltac:(lia)) as Ed.
  pose proof (Z.mod_pos_bound d (s * s) Hm) as Rr.
  assert (Hq : 0 <= d / (s * s) < 4).
  { split; [apply Z.div_pos; lia | apply Z.div_lt_upper_bound; lia]. }
  set (q := d / (s * s)) in *. set (r := d mod (s * s)) in *.
  rewrite DToXY_spec by (unfold Int in Hd; lia).
  replace (cell (S k) d) with (cell (S k) (s * s * q + r)) by (f_equal; lia).
  unfold s at 1 2. rewrite cell_S by (fold s; lia). fold s.
  pose proof (cell_range k r) as [Ca Cb]. fold s in Ca, Cb.
  destruct (cell k r) as [a b]. cbn [fst snd] in Ca, Cb.
  assert (C : q = 0 \/ q = 1 \/ q = 2 \/ q = 3) by lia.
  destruct C as [C | [C | [C | C]]]; rewrite C in *;
    unfold place, quadrant, rotZ; cbn [Z.eqb Pos.eqb];
    eexists; eexists; (split; [reflexivity | ]); repeat split; nia.
Qed.

Lemma DToXY_quadrants_witness :
  Int (2 * 4) /\ Int 40 /\ 0 <= 40 <= 4 * (4 * 4) - 1 /\
  exists x y,
    DToXY (2 * 4) 40 = Some (x, y) /\
    (40 < 4 * 4 -> x < 4 /\ y < 4) /\
    (4 * 4 <= 40 < 2 * (4 * 4) -> x < 4 /\ 4 <= y) /\
    (2 * (4 * 4) <= 40 < 3 * (4 * 4) -> 4 <= x /\ 4 <= y) /\
    (3 * (4 * 4) <= 40 -> 4 <= x /\ y < 4).
Proof.
  assert (I8 : Int (2 * 4)) by (int_bounds; lia).
  assert (Id : Int 40) by (int_bounds; lia).
  assert (R : 0 <= 40 <= 4 * (4 * 4) - 1) by lia.
  split; [exact I8 | split; [exact Id | split; [exact R | ]]].
  apply (DToXY_quadrants 4 40 I8 Id); [exists 2%nat; reflexivity | exact R].
Defined.

Lemma DToXY_loop_round_up k n :
  (k <= 62)%nat -> side k < 2 * n <= 2 * side k ->
  forall fuel i t x y,
    (i <= k)%nat ->
    DToXY_loop fuel n (side i) t x y
    = DToXY_loop fuel (side k) (side i) t x y.
Proof.
  intros Hk Hn. induction fuel as [ | fuel IH]; intros i t x y Hi;
    [reflexivity | ].
  cbn [DToXY_loop].
  assert (Lt : side i < side k -> (i < k)%nat).
  { intros L. destruct (Nat.lt_ge_cases i k) as [ | G]; [assumption | ].
    pose proof (side_le k i G). lia. }
  destruct (Z.ltb_spec (side i) n) as [A | A];
    destruct (Z.ltb_spec (side i) (side k)) as [B | B].
  - destruct (rot (side i) _ _ (x, y)) as [x' y'].
    specialize (Lt B). rewrite mul_side_2 by lia. apply IH. lia.
  - lia.
  - specialize (Lt B). pose proof (side_le (S i) k Lt) as L.
    rewrite side_S in L. lia.
  - reflexivity.
Qed.

(** A side that is not a power of two counts as the next power of two:
    [DToXY] runs its loop until [s] reaches or passes [n]. *)
Theorem DToXY_round_up m n d :
  Int m -> pow2 m -> m < 2 * n <= 2 * m ->
  exists p, DToXY n d = Some p /\ DToXY m d = Some p.
Proof.
  intros Hm Hp Hn. destruct (pow2_side m Hp Hm) as [k [Hk ->]].
  destruct (DToXY_returns (side k) d (side_le k 62 Hk)) as [p H].
  exists p. split; [ | exact H]. rewrite <- H. unfold DToXY.
  change 1 with (side 0). apply DToXY_loop_round_up; [exact Hk | lia | lia].
Qed.

Lemma DToXY_round_up_witness :
  Int 8 /\ 8 < 2 * 5 <= 2 * 8 /\
  exists p, DToXY 5 37 = Some p /\ DToXY 8 37 = Some p.
Proof.
  assert (I8 : Int 8) by (int_bounds; lia).
  assert (R : 8 < 2 * 5 <= 2 * 8) by lia.
  split; [exact I8 | split; [exact R | ]].
  apply (DToXY_round_up 8 5 37 I8); [exists 3%nat; reflexivity | exact R].
Defined.
